(** * Smartpointer.cpp: manual release versus scope-bound release

    A shallow embedding of [src/Smartpointer.cpp] and the properties of its
    output and of the lifetime of its two [Resource] objects.

    The program is sequential C++ that allocates with [new], releases with
    [delete] or through [std::unique_ptr], and writes lines to [std::cout].
    It is modelled in a state monad over a store of live objects and the
    list of lines written so far.  Three things that the C++ text leaves
    implicit are made explicit:

    - the address [new] returns is chosen by an allocator, a parameter of
      the model (nothing below depends on which address it picks);
    - every constructed object gets a serial number, so that the two
      [Resource] objects of a run are told apart even when they hold the
      same value and live at the same address;
    - leaving a block runs the destructors of its locals on every way out
      (falling off the end, [return], a propagating exception). *)

From Stdlib Require Import ZArith String Ascii DecimalString DecimalPos DecimalZ.
From stdpp Require Import base option list gmap strings.

Local Open Scope Z_scope.
Local Open Scope string_scope.
Local Open Scope list_scope.

(** ** Values, objects and the store *)

(** A non-null address; a pointer is an address or [nullptr]. *)
Definition loc := positive.
Definition ptr := option loc.
Definition nullptr : ptr := None.

(** [int]; the program does no arithmetic on it. *)
Definition int := Z.

(** [class Resource { ... private: int data; };] *)
Record Resource := mkResource { data : int }.

(** A live object: its serial number (model only) and its fields. *)
Record object := mkObject { oid : nat; fields : Resource }.

(** Which statement wrote a line (model only; [text] is what is seen). *)
Inductive origin :=
| InMain                (* a statement of [main] *)
| InWithout             (* a statement of [withoutSmartPointer] *)
| Ctor (id : nat)       (* the body of [Resource::Resource] *)
| Shown (id : nat)      (* the body of [Resource::display] *)
| Dtor (id : nat).      (* the body of [Resource::~Resource] *)

Record line := mkLine { who : origin; text : string }.

(** Who asked for a release: a [delete] expression written in the program,
    or the destructor of an owning [std::unique_ptr]. *)
Inductive releaser := ExplicitDelete | OwnerScopeExit.

Record state := mkState {
  heap    : gmap loc object;          (* live objects *)
  next_id : nat;                      (* serial number of the next object *)
  out     : list line;                (* lines written to std::cout *)
  frees   : list (nat * releaser)     (* objects released so far, in order *)
}.

Definition initial : state :=
  {| heap := ∅; next_id := 0; out := []; frees := [] |}.

#[global] Instance origin_eq_dec : EqDecision origin.
Proof. solve_decision. Defined.
#[global] Instance releaser_eq_dec : EqDecision releaser.
Proof. solve_decision. Defined.
#[global] Instance line_eq_dec : EqDecision line.
Proof. solve_decision. Defined.

(** ** The monad: state, abrupt exits and undefined behaviour *)

(** Undefined behaviour the program could run into. *)
Inductive fault := NullDeref | UseAfterFree | DoubleFree.

(** Ways of leaving a block other than by reaching its end. *)
Inductive abrupt := EarlyReturn | Unwinding.

Inductive result (A : Type) :=
| Normal (a : A)
| Abrupt (k : abrupt)
| Stuck (f : fault).
Arguments Normal {A} a.
Arguments Abrupt {A} k.
Arguments Stuck {A} f.

Definition M (A : Type) : Type := state → result A * state.

#[global] Instance M_ret : MRet M := λ A a s, (Normal a, s).

#[global] Instance M_bind : MBind M := λ A B k m s,
  match m s with
  | (Normal a, s1) => k a s1
  | (Abrupt e, s1) => (Abrupt e, s1)
  | (Stuck f, s1) => (Stuck f, s1)
  end.

Definition stuck {A} (f : fault) : M A := λ s, (Stuck f, s).
Definition leave {A} (k : abrupt) : M A := λ s, (Abrupt k, s).

(** A block with one local of class type: [init] constructs the local,
    [body] is the rest of the block, [destroy] is the local's destructor.
    The destructor runs however [body] is left; only undefined behaviour in
    [body] stops the machine before it. *)
Definition scoped {X A} (init : M X) (destroy : X → M unit) (body : X → M A) : M A :=
  x ← init;
  λ s, match body x s with
       | (Stuck f, s1) => (Stuck f, s1)
       | (r, s1) =>
           match destroy x s1 with
           | (Normal _, s2) => (r, s2)
           | (Abrupt k, s2) => (Abrupt k, s2)
           | (Stuck f, s2) => (Stuck f, s2)
           end
       end.

(** A call of a [void] function: a [return] inside ends the call. *)
Definition call (body : M unit) : M unit := λ s,
  match body s with
  | (Abrupt EarlyReturn, s1) => (Normal tt, s1)
  | other => other
  end.

(** ** std::cout *)

Definition endl : string := String "010"%char EmptyString.

(** [operator<<(int)]: decimal digits, a minus sign when negative. *)
Definition show_int (v : int) : string := NilZero.string_of_int (Z.to_int v).

(** [std::cout << ... << std::endl;] writes one line. *)
Definition cout_endl (o : origin) (t : string) : M unit := λ s,
  (Normal tt,
   {| heap := heap s; next_id := next_id s;
      out := out s ++ [mkLine o t]; frees := frees s |}).

(** The characters on standard output. *)
Definition stdout (s : state) : string :=
  String.concat EmptyString (map (λ l, text l +:+ endl) (out s)).

(** ** class Resource *)

(** Reading the object [this] points to. *)
Definition deref (this : loc) : M object := λ s,
  match heap s !! this with
  | Some o => (Normal o, s)
  | None => (Stuck UseAfterFree, s)
  end.

(** The member initializer [data(value)] on fresh storage at [this]. *)
Definition init_data (this : loc) (value : int) : M unit := λ s,
  (Normal tt,
   {| heap := <[this := mkObject (next_id s) (mkResource value)]> (heap s);
      next_id := S (next_id s); out := out s; frees := frees s |}).

(** [Resource(int value) : data(value) { std::cout << ... << data << std::endl; }] *)
Definition Resource_ctor (this : loc) (value : int) : M unit :=
  init_data this value;;
  o ← deref this;
  cout_endl (Ctor (oid o)) ("Resource constructor. Value: " +:+ show_int (data (fields o))).

(** [~Resource() { std::cout << ... << data << std::endl; }] *)
Definition Resource_dtor (this : loc) : M unit :=
  o ← deref this;
  cout_endl (Dtor (oid o)) ("Resource destructor. Value: " +:+ show_int (data (fields o))).

(** [void display() { std::cout << "Value: " << data << std::endl; }] *)
Definition display (this : loc) : M unit :=
  o ← deref this;
  cout_endl (Shown (oid o)) ("Value: " +:+ show_int (data (fields o))).

(** [p->m]: the address held by [p]. *)
Definition arrow (p : ptr) : M loc :=
  match p with
  | Some a => mret a
  | None => stuck NullDeref
  end.

(** Giving the storage at [a] back, on behalf of [rel]. *)
Definition dealloc (rel : releaser) (a : loc) (id : nat) : M unit := λ s,
  (Normal tt,
   {| heap := delete a (heap s); next_id := next_id s; out := out s;
      frees := frees s ++ [(id, rel)] |}).

(** [delete p;]: nothing for [nullptr]; otherwise the destructor, then the
    storage is given back.  Deleting what is not live is undefined. *)
Definition delete_ (rel : releaser) (p : ptr) : M unit :=
  match p with
  | None => mret tt
  | Some a => λ s,
      match heap s !! a with
      | None => (Stuck DoubleFree, s)
      | Some o => (Resource_dtor a;; dealloc rel a (oid o)) s
      end
  end.

(** ** std::unique_ptr<Resource> *)

Record unique_ptr := mkUnique { get : ptr }.

(** [~unique_ptr()]: deletes the owned object, if any. *)
Definition unique_ptr_dtor (u : unique_ptr) : M unit :=
  match get u with
  | None => mret tt
  | Some a => delete_ OwnerScopeExit (Some a)
  end.

(** ** The program *)

Section Program.

(** The allocator: the address [new] picks, given the live objects. *)
Variable alloc : gmap loc object → loc.

(** [new Resource(value)] *)
Definition new_Resource (value : int) : M ptr := λ s,
  let a := alloc (heap s) in
  (Resource_ctor a value;; mret (Some a)) s.

(** [std::make_unique<Resource>(value)] *)
Definition make_unique (value : int) : M unique_ptr :=
  p ← new_Resource value;
  mret (mkUnique p).

Definition withoutSmartPointer : M unit :=
  call (
    rawPtr ← new_Resource 42;
    (this ← arrow rawPtr; display this);;
    delete_ ExplicitDelete rawPtr;;
    cout_endl InWithout "Memory manually freed.").

Definition withUniquePointer : M unit :=
  call (
    scoped (make_unique 42) unique_ptr_dtor (λ smartPtr,
      this ← arrow (get smartPtr); display this)).

Definition main : M int :=
  cout_endl InMain "Without Smart Pointer:";;
  withoutSmartPointer;;
  cout_endl InMain EmptyString;;
  cout_endl InMain "With Smart Pointer:";;
  withUniquePointer;;
  cout_endl InMain EmptyString;;
  mret 0.

(** One run of the process, from an empty store. *)
Definition run : result int * state := main initial.

End Program.

(** The exit status of the process; [None] when it does not end by
    returning from [main]. *)
Definition exit_code (r : result int) : option int :=
  match r with
  | Normal v => Some v
  | _ => None
  end.

(** An allocator to run the model on: the lowest free address. *)
Definition first_fit (h : gmap loc object) : loc := fresh (dom h).

(** ** Vocabulary for statements about the output *)

(** The indices of the lines that satisfy [f], counted from [n]. *)
Fixpoint positions_from (n : nat) (f : line → bool) (l : list line) : list nat :=
  match l with
  | [] => []
  | x :: l' => (if f x then [n] else []) ++ positions_from (S n) f l'
  end.

Definition positions (f : line → bool) (l : list line) : list nat :=
  positions_from 0 f l.

Definition written_by (o : origin) (ln : line) : bool := bool_decide (who ln = o).
Definition reads (t : string) (ln : line) : bool := bool_decide (text ln = t).

(** Lines satisfying [P] and lines satisfying [Q] both occur in [l], and
    every [P] line comes strictly after every [Q] line. *)
Definition strictly_after (P Q : line → bool) (l : list line) : Prop :=
  positions P l ≠ [] ∧ positions Q l ≠ [] ∧
  ∀ i j, i ∈ positions P l → j ∈ positions Q l → (j < i)%nat.

(** How many lines of [l] were written by [o]. *)
Definition count_from (o : origin) (l : list line) : nat :=
  length (positions (written_by o) l).

(** How many times the object [id] was released. *)
Definition release_count (id : nat) (fs : list (nat * releaser)) : nat :=
  length (filter (λ e, e.1 = id) fs).

(** The lines the three member functions write for object [id] holding [v]. *)
Definition ctor_line (id : nat) (v : int) : line :=
  mkLine (Ctor id) ("Resource constructor. Value: " +:+ show_int v).
Definition shown_line (id : nat) (v : int) : line :=
  mkLine (Shown id) ("Value: " +:+ show_int v).
Definition dtor_line (id : nat) (v : int) : line :=
  mkLine (Dtor id) ("Resource destructor. Value: " +:+ show_int v).

Definition release_message : line := mkLine InWithout "Memory manually freed.".

(** The state a run ends in, whatever the allocator does (see [run_eq]). *)
Definition final : state :=
  {| heap := ∅;
     next_id := 2;
     out := [ mkLine InMain "Without Smart Pointer:";
              ctor_line 0 42; shown_line 0 42; dtor_line 0 42;
              release_message;
              mkLine InMain EmptyString;
              mkLine InMain "With Smart Pointer:";
              ctor_line 1 42; shown_line 1 42; dtor_line 1 42;
              mkLine InMain EmptyString ];
     frees := [ (0%nat, ExplicitDelete); (1%nat, OwnerScopeExit) ] |}.

(** The end-to-end scenario in the order the specification lists it: the
    scoped object's destructor line after the last blank line. *)
Definition scenario_as_specified : list string :=
  [ "Without Smart Pointer:";
    "Resource constructor. Value: 42";
    "Value: 42";
    "Resource destructor. Value: 42";
    "Memory manually freed.";
    EmptyString;
    "With Smart Pointer:";
    "Resource constructor. Value: 42";
    "Value: 42";
    EmptyString;
    "Resource destructor. Value: 42" ].

(** The same lines with the last two exchanged. *)
Definition scenario_as_run : list string :=
  [ "Without Smart Pointer:";
    "Resource constructor. Value: 42";
    "Value: 42";
    "Resource destructor. Value: 42";
    "Memory manually freed.";
    EmptyString;
    "With Smart Pointer:";
    "Resource constructor. Value: 42";
    "Value: 42";
    "Resource destructor. Value: 42";
    EmptyString ].

(** Appending a line, and recording a release, as state transformers. *)
Definition with_line (ln : line) (s : state) : state :=
  {| heap := heap s; next_id := next_id s; out := out s ++ [ln]; frees := frees s |}.

Definition released (a : loc) (id : nat) (rel : releaser) (s : state) : state :=
  {| heap := delete a (heap s); next_id := next_id s; out := out s;
     frees := frees s ++ [(id, rel)] |}.

Definition constructed (a : loc) (v : int) (s : state) : state :=
  {| heap := <[a := mkObject (next_id s) (mkResource v)]> (heap s);
     next_id := S (next_id s); out := out s; frees := frees s |}.

(** A body for the block of [withUniquePointer] that uses the object and
    is then left by a propagating exception. *)
Definition display_then_throw (smartPtr : unique_ptr) : M unit :=
  (this ← arrow (get smartPtr); display this);;
  leave Unwinding.

(** ** Vocabulary for statements about any state *)

(** The object a line is about, for the lines the member functions write. *)
Definition origin_id (o : origin) : option nat :=
  match o with
  | Ctor id | Shown id | Dtor id => Some id
  | InMain | InWithout => None
  end.

(** Serial numbers are handed out in order: every object that is live, was
    released or is mentioned in the output has a number below [next_id]. *)
Definition well_formed (s : state) : Prop :=
  Forall (λ ln, ∀ id, origin_id (who ln) = Some id → (id < next_id s)%nat) (out s) ∧
  Forall (λ e, (e.1 < next_id s)%nat) (frees s) ∧
  map_Forall (λ _ o, (oid o < next_id s)%nat) (heap s).

(** A caller that runs the two demonstrations any number of times, in any
    order ([main] is the caller that runs each once, with its own lines in
    between). *)
Inductive demo := Manual | Scoped.

Definition run_demo (alloc : gmap loc object → loc) (d : demo) : M unit :=
  match d with
  | Manual => withoutSmartPointer alloc
  | Scoped => withUniquePointer alloc
  end.

Fixpoint run_demos (alloc : gmap loc object → loc) (ds : list demo) : M unit :=
  match ds with
  | [] => mret tt
  | d :: ds' => run_demo alloc d;; run_demos alloc ds'
  end.

(** ** How the operations run *)

Lemma bind_run {A B} (m : M A) (k : A → M B) s a s1 :
  m s = (Normal a, s1) → (m ≫= k) s = k a s1.
Proof. intros H. unfold mbind, M_bind. by rewrite H. Qed.

Lemma ret_run {A} (a : A) s : (mret a : M A) s = (Normal a, s).
Proof. reflexivity. Qed.

Lemma init_data_run a v s : init_data a v s = (Normal tt, constructed a v s).
Proof. reflexivity. Qed.

Lemma cout_endl_run o t s :
  cout_endl o t s = (Normal tt, with_line (mkLine o t) s).
Proof. reflexivity. Qed.

Lemma deref_live a o s :
  heap s !! a = Some o → deref a s = (Normal o, s).
Proof. intros H. unfold deref. by rewrite H. Qed.

Lemma display_run a o s :
  heap s !! a = Some o →
  display a s = (Normal tt, with_line (shown_line (oid o) (data (fields o))) s).
Proof.
  intros H. unfold display. by rewrite (bind_run _ _ _ _ _ (deref_live a o s H)).
Qed.

Lemma Resource_dtor_run a o s :
  heap s !! a = Some o →
  Resource_dtor a s = (Normal tt, with_line (dtor_line (oid o) (data (fields o))) s).
Proof.
  intros H. unfold Resource_dtor.
  by rewrite (bind_run _ _ _ _ _ (deref_live a o s H)).
Qed.

Lemma delete_run rel a o s :
  heap s !! a = Some o →
  delete_ rel (Some a) s =
  (Normal tt, released a (oid o) rel (with_line (dtor_line (oid o) (data (fields o))) s)).
Proof.
  intros H. unfold delete_. rewrite H.
  by rewrite (bind_run _ _ _ _ _ (Resource_dtor_run a o s H)).
Qed.

Lemma constructed_lookup a v s :
  heap (constructed a v s) !! a = Some (mkObject (next_id s) (mkResource v)).
Proof. cbn. apply lookup_insert_eq. Qed.

Lemma Resource_ctor_run a v s :
  Resource_ctor a v s =
  (Normal tt, with_line (ctor_line (next_id s) v) (constructed a v s)).
Proof.
  unfold Resource_ctor.
  rewrite (bind_run _ _ _ _ _ (init_data_run a v s)).
  by rewrite (bind_run _ _ _ _ _ (deref_live a _ _ (constructed_lookup a v s))).
Qed.

Section Runs.
Variable alloc : gmap loc object → loc.

Lemma new_Resource_run v s :
  new_Resource alloc v s =
  (Normal (Some (alloc (heap s))),
   with_line (ctor_line (next_id s) v) (constructed (alloc (heap s)) v s)).
Proof.
  unfold new_Resource. cbv zeta.
  by rewrite (bind_run _ _ _ _ _ (Resource_ctor_run _ v s)).
Qed.

Lemma make_unique_run v s :
  make_unique alloc v s =
  (Normal (mkUnique (Some (alloc (heap s)))),
   with_line (ctor_line (next_id s) v) (constructed (alloc (heap s)) v s)).
Proof.
  unfold make_unique. by rewrite (bind_run _ _ _ _ _ (new_Resource_run v s)).
Qed.

End Runs.

(** Leaving a block whose local was constructed, whose body has defined
    behaviour and whose destructor completes: the body's way out is kept. *)
Lemma scoped_run {X A} (init : M X) (destroy : X → M unit) (body : X → M A)
    s x s0 r s1 s2 :
  init s = (Normal x, s0) →
  body x s0 = (r, s1) →
  (∀ f, r ≠ Stuck f) →
  destroy x s1 = (Normal tt, s2) →
  scoped init destroy body s = (r, s2).
Proof.
  intros Hinit Hbody Hdef Hdestroy. unfold scoped.
  rewrite (bind_run _ _ _ _ _ Hinit), Hbody, Hdestroy.
  destruct r as [v|k|f]; [done | done | by destruct (Hdef f)].
Qed.

Lemma unique_ptr_dtor_run a o s :
  heap s !! a = Some o →
  unique_ptr_dtor (mkUnique (Some a)) s =
  (Normal tt,
   released a (oid o) OwnerScopeExit (with_line (dtor_line (oid o) (data (fields o))) s)).
Proof. intros H. unfold unique_ptr_dtor. cbn [get]. by apply delete_run. Qed.

Lemma heap_with_line ln s : heap (with_line ln s) = heap s.
Proof. reflexivity. Qed.

Section FunctionRuns.
Variable alloc : gmap loc object → loc.

(** What one call of [withoutSmartPointer] does to any state. *)
Lemma withoutSmartPointer_run s :
  withoutSmartPointer alloc s =
  (Normal tt,
   {| heap := delete (alloc (heap s)) (heap s);
      next_id := S (next_id s);
      out := out s ++ [ ctor_line (next_id s) 42; shown_line (next_id s) 42;
                        dtor_line (next_id s) 42; release_message ];
      frees := frees s ++ [ (next_id s, ExplicitDelete) ] |}).
Proof.
  set (a := alloc (heap s)).
  pose proof (constructed_lookup a 42 s) as Hlive.
  unfold withoutSmartPointer, call.
  rewrite (bind_run _ _ _ _ _ (new_Resource_run alloc 42 s)). fold a.
  set (s1 := with_line (ctor_line (next_id s) 42) (constructed a 42 s)) in *.
  assert (Hshow : (this ← arrow (Some a); display this) s1 =
                  (Normal tt, with_line (shown_line (next_id s) 42) s1)).
  { unfold arrow. rewrite (bind_run _ _ _ _ _ (ret_run a s1)).
    by rewrite (display_run a _ s1 Hlive). }
  rewrite (bind_run _ _ _ _ _ Hshow).
  rewrite (bind_run _ _ _ _ _ (delete_run ExplicitDelete a _
             (with_line (shown_line (next_id s) 42) s1) Hlive)).
  rewrite cout_endl_run. unfold with_line, released, s1. cbn.
  rewrite delete_insert_eq, <- !app_assoc. reflexivity.
Qed.

(** What one call of [withUniquePointer] does to any state. *)
Lemma withUniquePointer_run s :
  withUniquePointer alloc s =
  (Normal tt,
   {| heap := delete (alloc (heap s)) (heap s);
      next_id := S (next_id s);
      out := out s ++ [ ctor_line (next_id s) 42; shown_line (next_id s) 42;
                        dtor_line (next_id s) 42 ];
      frees := frees s ++ [ (next_id s, OwnerScopeExit) ] |}).
Proof.
  set (a := alloc (heap s)).
  pose proof (constructed_lookup a 42 s) as Hlive.
  set (s1 := with_line (ctor_line (next_id s) 42) (constructed a 42 s)).
  assert (Hshow : (this ← arrow (get (mkUnique (Some a))); display this) s1 =
                  (Normal tt, with_line (shown_line (next_id s) 42) s1)).
  { cbn [get arrow]. rewrite (bind_run _ _ _ _ _ (ret_run a s1)).
    by rewrite (display_run a _ s1 Hlive). }
  unfold withUniquePointer, call.
  rewrite (scoped_run _ _ _ s _ _ _ _ _
             (make_unique_run alloc 42 s) Hshow ltac:(done)
             (unique_ptr_dtor_run a _
                (with_line (shown_line (next_id s) 42) s1) Hlive)).
  unfold with_line, released, s1. cbn.
  rewrite delete_insert_eq, <- !app_assoc. reflexivity.
Qed.

(** A run ends in [final], with [main] returning 0. *)
Lemma run_eq : run alloc = (Normal 0, final).
Proof.
  unfold run, main.
  rewrite (bind_run _ _ _ _ _ (cout_endl_run _ _ _)).
  rewrite (bind_run _ _ _ _ _ (withoutSmartPointer_run _)).
  rewrite (bind_run _ _ _ _ _ (cout_endl_run _ _ _)).
  rewrite (bind_run _ _ _ _ _ (cout_endl_run _ _ _)).
  rewrite (bind_run _ _ _ _ _ (withUniquePointer_run _)).
  rewrite (bind_run _ _ _ _ _ (cout_endl_run _ _ _)).
  rewrite ret_run. cbn. rewrite !delete_empty. reflexivity.
Qed.

End FunctionRuns.

(** ** Facts about the vocabulary *)

Lemma positions_from_spec f l n i :
  i ∈ positions_from n f l ↔
  ∃ k x, i = (n + k)%nat ∧ l !! k = Some x ∧ f x = true.
Proof.
  revert n. induction l as [|y l IH]; intros n; cbn [positions_from].
  - split; [by intros ?%elem_of_nil | by intros (k & x & _ & ? & _)].
  - rewrite elem_of_app, IH. split.
    + intros [Hhd | (k & x & -> & Hk & Hf)].
      * destruct (f y) eqn:Hy; [|by apply elem_of_nil in Hhd].
        apply list_elem_of_singleton in Hhd as ->.
        exists 0%nat, y. split; [lia | done].
      * exists (S k), x. split; [lia | done].
    + intros (k & x & -> & Hk & Hf). destruct k as [|k].
      * left. cbn in Hk. injection Hk as ->. rewrite Hf.
        apply list_elem_of_singleton. lia.
      * right. exists k, x. split; [lia | done].
Qed.

(** [positions] lists exactly the indices of the lines satisfying [f]. *)
Lemma positions_spec f l i :
  i ∈ positions f l ↔ ∃ x, l !! i = Some x ∧ f x = true.
Proof.
  unfold positions. rewrite positions_from_spec. split.
  - intros (k & x & -> & ? & ?). by exists x.
  - intros (x & ? & ?). by exists i, x.
Qed.

(** [operator<<] prints different integers differently. *)
Lemma show_int_inj v w : show_int v = show_int w → v = w.
Proof.
  unfold show_int. intros H.
  assert (Hnz : ∀ z, Z.to_int z ≠ Decimal.Pos Decimal.Nil ∧
                     Z.to_int z ≠ Decimal.Neg Decimal.Nil).
  { intros [|p|p]; cbn; split; try discriminate;
      intros [= Hp]; by apply (DecimalPos.Unsigned.to_uint_nonnil p). }
  apply DecimalZ.to_int_inj.
  apply (inj Some).
  rewrite <- (NilZero.isi (Z.to_int v)), <- (NilZero.isi (Z.to_int w));
    [by rewrite H | apply Hnz ..].
Qed.

Lemma strictly_after_single P Q l i j :
  positions P l = [i] → positions Q l = [j] →
  strictly_after P Q l ↔ (j < i)%nat.
Proof.
  intros HP HQ. unfold strictly_after. rewrite HP, HQ. split.
  - intros (_ & _ & H). apply H; by apply list_elem_of_singleton.
  - intros Hlt. repeat split; [done | done |].
    intros i' j' ->%list_elem_of_singleton ->%list_elem_of_singleton. done.
Qed.

(** Where the signals and messages sit in the output of a run. *)
Lemma final_shown0 : positions (written_by (Shown 0)) (out final) = [2%nat].
Proof. reflexivity. Qed.
Lemma final_dtor0 : positions (written_by (Dtor 0)) (out final) = [3%nat].
Proof. reflexivity. Qed.
Lemma final_release :
  positions (reads "Memory manually freed.") (out final) = [4%nat].
Proof. reflexivity. Qed.

(** ** The claims *)

(** C1 (as stated, refuted).  The output of a run is not the sequence the
    end-to-end scenario lists: there the scoped object's destructor line
    is the last line, after the second blank line. *)
Lemma scenario_order_differs :
  ¬ (map text (out (run first_fit).2) = scenario_as_specified ∧
     exit_code (run first_fit).1 = Some 0).
Proof. intros [H _]. vm_compute in H. discriminate H. Qed.

(** C1 (amended).  Whatever the allocator does, a run writes the manual
    header, the constructor line, the display line, the destructor line,
    "Memory manually freed.", a blank line, the scoped header, the
    constructor line, the display line, the destructor line and then a
    blank line, these eleven lines and nothing else, and [main] returns 0. *)
Theorem end_to_end_output (alloc : gmap loc object → loc) :
  map text (out (run alloc).2) = scenario_as_run ∧
  stdout (run alloc).2 =
    String.concat EmptyString (map (λ t, t +:+ endl) scenario_as_run) ∧
  exit_code (run alloc).1 = Some 0.
Proof. rewrite run_eq. by repeat split. Qed.

(** C2.  In every run two [Resource] objects are constructed (numbers 0
    and 1); each has exactly one constructor line, exactly one destructor
    line and exactly one release, no other object has any, and no object is
    live when the run ends. *)
Theorem one_construction_one_destruction (alloc : gmap loc object → loc) :
  next_id (run alloc).2 = 2%nat ∧
  heap (run alloc).2 = ∅ ∧
  ∀ id : nat,
    count_from (Ctor id) (out (run alloc).2) = (if (id <? 2)%nat then 1 else 0)%nat ∧
    count_from (Dtor id) (out (run alloc).2) = (if (id <? 2)%nat then 1 else 0)%nat ∧
    release_count id (frees (run alloc).2) = (if (id <? 2)%nat then 1 else 0)%nat.
Proof.
  rewrite run_eq. cbn [snd]. split; [done | split; [done |]].
  intros [|[|id]]; by repeat split.
Qed.

(** C3 (as stated, refuted).  In the output of a run the destructor line
    of the manually managed object does not come after
    "Memory manually freed.". *)
Lemma manual_destruction_not_after_message :
  ¬ (strictly_after (written_by (Dtor 0)) (reads "Memory manually freed.")
       (out (run first_fit).2) ∧
     strictly_after (written_by (Dtor 0)) (written_by (Shown 0))
       (out (run first_fit).2)).
Proof.
  intros [(_ & _ & H) _]. specialize (H 3%nat 4%nat).
  assert (4 < 3)%nat; [|lia].
  apply H; apply positions_spec; eexists; (split; [reflexivity|]); reflexivity.
Qed.

(** C3 (amended).  In the output of every run the destructor line of the
    manually managed object (number 0, the one released by [delete]) comes
    strictly after its display line and strictly before
    "Memory manually freed.". *)
Theorem manual_destruction_order (alloc : gmap loc object → loc) :
  strictly_after (written_by (Dtor 0)) (written_by (Shown 0)) (out (run alloc).2) ∧
  strictly_after (reads "Memory manually freed.") (written_by (Dtor 0))
    (out (run alloc).2) ∧
  frees (run alloc).2 !! 0%nat = Some (0%nat, ExplicitDelete).
Proof.
  rewrite run_eq. cbn [snd]. split; [|split; [|done]].
  - apply (strictly_after_single _ _ _ _ _ final_dtor0 final_shown0). lia.
  - apply (strictly_after_single _ _ _ _ _ final_release final_dtor0). lia.
Qed.


(** C7.  [main] takes no argument; in every run every operation has
    defined behaviour and completes, no abrupt exit reaches [main], and the
    process ends with exit code 0. *)
Theorem exit_code_zero (alloc : gmap loc object → loc) :
  (run alloc).1 = Normal 0 ∧
  (∀ f, (run alloc).1 ≠ Stuck f) ∧
  (∀ k, (run alloc).1 ≠ Abrupt k) ∧
  exit_code (run alloc).1 = Some 0.
Proof. rewrite run_eq. cbn [fst]. by split_and!. Qed.

(** C8.  Two runs, whatever addresses their allocators hand out, end with
    the same result, the same lines in the same order and the same
    characters on standard output; a run takes nothing but its allocator,
    starts from the empty state [initial] and leaves no live object
    behind. *)
Theorem runs_are_identical (alloc1 alloc2 : gmap loc object → loc) :
  run alloc1 = run alloc2 ∧
  out (run alloc1).2 = out (run alloc2).2 ∧
  stdout (run alloc1).2 = stdout (run alloc2).2 ∧
  heap (run alloc1).2 = ∅ ∧
  heap (run alloc2).2 = ∅.
Proof. rewrite (run_eq alloc1), (run_eq alloc2). by split_and!. Qed.

(** C9.  Whenever [withUniquePointer] returns, the destructor line of its
    object is the last line written and the object is no longer live.  In
    the output of every run that line is at index 9, followed at index 10
    by the blank line [main] prints after the call; the blank line, not the
    destructor line, is the last of the eleven lines. *)
Theorem scoped_destruction_at_return (alloc : gmap loc object → loc) :
  (∀ s, ∃ s',
      withUniquePointer alloc s = (Normal tt, s') ∧
      last (out s') = Some (dtor_line (next_id s) 42) ∧
      heap s' !! alloc (heap s) = None) ∧
  positions (written_by (Dtor 1)) (out (run alloc).2) = [9%nat] ∧
  out (run alloc).2 !! 9%nat = Some (dtor_line 1 42) ∧
  out (run alloc).2 !! 10%nat = Some (mkLine InMain EmptyString) ∧
  last (out (run alloc).2) = Some (mkLine InMain EmptyString) ∧
  length (out (run alloc).2) = 11%nat.
Proof.
  split.
  { intros s. eexists. rewrite withUniquePointer_run. cbn [out heap].
    split; [done |]. split; [| apply lookup_delete_eq].
    change (out s ++ [ctor_line (next_id s) 42; shown_line (next_id s) 42;
                       dtor_line (next_id s) 42])
      with (out s ++ [ctor_line (next_id s) 42; shown_line (next_id s) 42] ++
                     [dtor_line (next_id s) 42]).
    rewrite (assoc_L (++)). apply last_snoc. }
  rewrite run_eq. by split_and!.
Qed.

(** Counting over an output or a release log that grew by one entry. *)
Lemma positions_from_app f l1 l2 n :
  positions_from n f (l1 ++ l2) =
  positions_from n f l1 ++ positions_from (n + length l1) f l2.
Proof.
  revert n. induction l1 as [|x l1 IH]; intros n; cbn.
  - by rewrite Nat.add_0_r.
  - rewrite IH, <- (assoc_L (++)). by rewrite Nat.add_succ_r.
Qed.

Lemma count_from_snoc o l ln :
  count_from o (l ++ [ln]) =
  (count_from o l + (if written_by o ln then 1 else 0))%nat.
Proof.
  unfold count_from, positions. rewrite positions_from_app, length_app. cbn.
  by destruct (written_by o ln).
Qed.

Lemma release_count_snoc id fs id' rel :
  release_count id (fs ++ [(id', rel)]) =
  (release_count id fs + (if decide (id' = id) then 1 else 0))%nat.
Proof.
  unfold release_count. rewrite filter_app, length_app. f_equal.
  rewrite filter_cons, filter_nil. cbn. by case_decide.
Qed.

(** C6.  [withUniquePointer] is one block: the declaration of the owning
    pointer [smartPtr], then the call of [display] through it.  From any
    state the statements after the declaration complete normally and leave
    the object live and unreleased, so the block of the source is left in
    one way only, by reaching its end; on that way out the owner releases
    the object: [withUniquePointer] returns with the object no longer
    live, one release (by the owner) and one destructor line added.
    The same holds for the other ways out.  Put any statements [body] in
    place of the call of [display], and suppose they have defined
    behaviour, leave the owned object live and do not release it
    themselves.  Then however they are left ([r] is normal completion, an
    early return or a propagating exception), the block is left the same
    way, the function returns for an early return and passes an exception
    on, and the owner has released the object on the way out: it is no
    longer live, it has been released exactly once and has exactly one
    destructor line. *)
Theorem scoped_release_on_every_exit
    (alloc : gmap loc object → loc) (body : unique_ptr → M unit)
    (s : state) (r : result unit) (s2 : state) :
  body (mkUnique (Some (alloc (heap s)))) (make_unique alloc 42 s).2 = (r, s2) →
  (∀ f, r ≠ Stuck f) →
  heap s2 !! alloc (heap s) = Some (mkObject (next_id s) (mkResource 42)) →
  release_count (next_id s) (frees s2) = 0%nat →
  count_from (Dtor (next_id s)) (out s2) = 0%nat →
  (* the function is the block, with its own statements after the declaration *)
  withUniquePointer alloc =
    call (scoped (make_unique alloc 42) unique_ptr_dtor
            (λ smartPtr, this ← arrow (get smartPtr); display this)) ∧
  (* those statements complete normally, keep the object and release nothing *)
  (∃ s1',
     (this ← arrow (Some (alloc (heap s))); display this) (make_unique alloc 42 s).2 =
       (Normal tt, s1') ∧
     heap s1' !! alloc (heap s) = Some (mkObject (next_id s) (mkResource 42)) ∧
     frees s1' = frees s) ∧
  (* so the function, from this state, releases its object once, by the owner *)
  (∃ s',
     withUniquePointer alloc s = (Normal tt, s') ∧
     heap s' !! alloc (heap s) = None ∧
     frees s' = frees s ++ [ (next_id s, OwnerScopeExit) ] ∧
     out s' = out s ++ [ ctor_line (next_id s) 42; shown_line (next_id s) 42;
                         dtor_line (next_id s) 42 ]) ∧
  (* and so does the same block left in any way by other statements *)
  ∃ s3,
    scoped (make_unique alloc 42) unique_ptr_dtor body s = (r, s3) ∧
    call (scoped (make_unique alloc 42) unique_ptr_dtor body) s =
      (match r with Abrupt EarlyReturn => Normal tt | other => other end, s3) ∧
    heap s3 !! alloc (heap s) = None ∧
    release_count (next_id s) (frees s3) = 1%nat ∧
    count_from (Dtor (next_id s)) (out s3) = 1%nat ∧
    frees s3 = frees s2 ++ [ (next_id s, OwnerScopeExit) ] ∧
    out s3 = out s2 ++ [ dtor_line (next_id s) 42 ].
Proof.
  intros Hbody Hdef Hlive Hfrees Hout.
  rewrite make_unique_run in Hbody. cbn [snd] in Hbody.
  split; [reflexivity |]. split.
  { rewrite make_unique_run. cbn [snd]. eexists.
    unfold arrow. rewrite (bind_run _ _ _ _ _ (ret_run _ _)).
    rewrite (display_run (alloc (heap s)) _
               (with_line (ctor_line (next_id s) 42)
                  (constructed (alloc (heap s)) 42 s))
               (constructed_lookup _ 42 s)).
    split; [reflexivity |]. split; [apply constructed_lookup | reflexivity]. }
  split.
  { eexists. rewrite withUniquePointer_run. cbn [heap frees out].
    split_and!; try done. apply lookup_delete_eq. }
  pose proof (scoped_run _ _ _ s _ _ _ _ _ (make_unique_run alloc 42 s) Hbody Hdef
                (unique_ptr_dtor_run _ _ s2 Hlive)) as Hblock.
  eexists. split; [exact Hblock |]. split.
  { unfold call. rewrite Hblock. by destruct r as [[]|[]|]. }
  cbn [released with_line heap frees out oid fields data].
  split_and!; try done.
  - apply lookup_delete_eq.
  - rewrite release_count_snoc, Hfrees. by rewrite decide_True.
  - rewrite count_from_snoc, Hout. unfold written_by, dtor_line. cbn [who].
    by rewrite bool_decide_eq_true_2.
Qed.

(** C6 at a concrete input: from the initial state, the block is left by an
    exception thrown after the display; the exception leaves the function,
    and the object has been released once. *)
Lemma scoped_release_on_every_exit_witness :
  ∃ s3,
    call (scoped (make_unique first_fit 42) unique_ptr_dtor display_then_throw)
      initial = (Abrupt Unwinding, s3) ∧
    heap s3 !! first_fit (heap initial) = None ∧
    frees s3 = [ (0%nat, OwnerScopeExit) ] ∧
    out s3 = [ ctor_line 0 42; shown_line 0 42; dtor_line 0 42 ].
Proof.
  destruct (scoped_release_on_every_exit first_fit display_then_throw initial
              (Abrupt Unwinding)
              (display_then_throw (mkUnique (Some (first_fit (heap initial))))
                 (make_unique first_fit 42 initial).2).2)
    as (_ & _ & _ & s3 & _ & Hcall & Hgone & _ & _ & Hfrees & Hout).
  - reflexivity.
  - intros f. discriminate.
  - reflexivity.
  - reflexivity.
  - reflexivity.
  - exists s3. split_and!; [exact Hcall | exact Hgone | exact Hfrees | exact Hout].
Defined.

(** The display and destructor lines of a run, with the constructor line
    that comes before each. *)
Lemma final_signal_has_constructor id j ln :
  out final !! j = Some ln →
  who ln = Shown id ∨ who ln = Dtor id →
  (ln = shown_line id 42 ∨ ln = dtor_line id 42) ∧
  ∃ k, (k < j)%nat ∧ out final !! k = Some (ctor_line id 42).
Proof.
  intros Hj Hwho.
  do 11 (destruct j as [|j];
         [ injection Hj as <-; cbn in Hwho;
           destruct Hwho as [[= <-] | [= <-]];
           (split; [by (left + right) |]);
           first [ by exists 1%nat; split; [lia|]
                 | by exists 7%nat; split; [lia|] ]
         | ]).
  discriminate Hj.
Qed.

(** C5.  Every display line and every destructor line in the output of a
    run is the line for value 42 of its object, and the constructor line of
    that same object, also for value 42, is at a smaller index.  For the
    class itself, with any value [v] and from any state: the object that
    [new Resource(v)] constructs announces [v], its display line shows [v]
    and the destructor line written when it is deleted shows [v]. *)
Theorem display_reports_constructed_value
    (alloc : gmap loc object → loc) (id j : nat) (ln : line) :
  out (run alloc).2 !! j = Some ln →
  who ln = Shown id ∨ who ln = Dtor id →
  (ln = shown_line id 42 ∨ ln = dtor_line id 42) ∧
  (∃ k, (k < j)%nat ∧ out (run alloc).2 !! k = Some (ctor_line id 42)) ∧
  (∀ (v : int) (s : state) (rel : releaser),
     let s1 := (new_Resource alloc v s).2 in
     (new_Resource alloc v s).1 = Normal (Some (alloc (heap s))) ∧
     out s1 = out s ++ [ ctor_line (next_id s) v ] ∧
     display (alloc (heap s)) s1 = (Normal tt, with_line (shown_line (next_id s) v) s1) ∧
     (delete_ rel (Some (alloc (heap s))) s1).1 = Normal tt ∧
     out (delete_ rel (Some (alloc (heap s))) s1).2 =
       out s1 ++ [ dtor_line (next_id s) v ]).
Proof.
  rewrite run_eq. cbn [snd]. intros Hj Hwho.
  destruct (final_signal_has_constructor id j ln Hj Hwho) as [Hln Hk].
  split; [done | split; [done |]].
  intros v s rel. cbv zeta. rewrite new_Resource_run. cbn [fst snd].
  set (s1 := with_line _ _).
  assert (Hlive : heap s1 !! alloc (heap s) =
                  Some (mkObject (next_id s) (mkResource v)))
    by apply constructed_lookup.
  rewrite (display_run _ _ s1 Hlive), (delete_run rel _ _ s1 Hlive).
  by split_and!.
Qed.

(** C5 at a concrete input: the display line of the scoped object. *)
Lemma display_reports_constructed_value_witness :
  (shown_line 1 42 = shown_line 1 42 ∨ shown_line 1 42 = dtor_line 1 42) ∧
  (∃ k, (k < 8)%nat ∧ out (run first_fit).2 !! k = Some (ctor_line 1 42)) ∧
  (∀ (v : int) (s : state) (rel : releaser),
     let s1 := (new_Resource first_fit v s).2 in
     (new_Resource first_fit v s).1 = Normal (Some (first_fit (heap s))) ∧
     out s1 = out s ++ [ ctor_line (next_id s) v ] ∧
     display (first_fit (heap s)) s1 =
       (Normal tt, with_line (shown_line (next_id s) v) s1) ∧
     (delete_ rel (Some (first_fit (heap s))) s1).1 = Normal tt ∧
     out (delete_ rel (Some (first_fit (heap s))) s1).2 =
       out s1 ++ [ dtor_line (next_id s) v ]).
Proof.
  apply (display_reports_constructed_value first_fit 1 8 (shown_line 1 42)).
  - reflexivity.
  - left. reflexivity.
Defined.

(** C10.  For a live object, [display] completes and changes nothing but
    the output: the store, and so the object's [data], is as before.  The
    other operations do not write [data] either: the destructor body and
    [std::cout] leave the store as it is, [delete] only removes objects,
    and a construction writes the [data] of the new object alone. *)
Theorem display_is_read_only (a : loc) (o : object) (s : state) :
  heap s !! a = Some o →
  display a s = (Normal tt, with_line (shown_line (oid o) (data (fields o))) s) ∧
  heap (display a s).2 = heap s ∧
  heap (display a s).2 !! a = Some o ∧
  next_id (display a s).2 = next_id s ∧
  frees (display a s).2 = frees s ∧
  heap (Resource_dtor a s).2 = heap s ∧
  (∀ who_ t, heap (cout_endl who_ t s).2 = heap s) ∧
  (∀ rel a' o', heap (delete_ rel (Some a) s).2 !! a' = Some o' →
                heap s !! a' = Some o') ∧
  (∀ alloc v a', a' ≠ alloc (heap s) →
                 heap (new_Resource alloc v s).2 !! a' = heap s !! a') ∧
  (∀ alloc v, heap (new_Resource alloc v s).2 !! alloc (heap s) =
              Some (mkObject (next_id s) (mkResource v))).
Proof.
  intros Hlive.
  rewrite (display_run a o s Hlive), (Resource_dtor_run a o s Hlive).
  cbn [snd with_line heap next_id frees]. split_and!; try done.
  - intros rel a' o'. rewrite (delete_run rel a o s Hlive). cbn.
    by intros [_ ?]%lookup_delete_Some.
  - intros alloc v a' Hne. rewrite new_Resource_run. cbn.
    by apply lookup_insert_ne.
  - intros alloc v. rewrite new_Resource_run. cbn. apply lookup_insert_eq.
Qed.

(** C10 at a concrete input: the object of the scoped demonstration, in
    the state right after its construction from the initial state. *)
Lemma display_is_read_only_witness :
  heap (display (first_fit ∅) (new_Resource first_fit 42 initial).2).2 =
  heap (new_Resource first_fit 42 initial).2.
Proof.
  apply (display_is_read_only (first_fit ∅) (mkObject 0 (mkResource 42))
           (new_Resource first_fit 42 initial).2).
  reflexivity.
Defined.

(** ** Further properties of the demonstrations and of the class *)

Lemma first_fit_fresh (h : gmap loc object) : h !! first_fit h = None.
Proof. apply not_elem_of_dom. unfold first_fit. apply is_fresh. Qed.

Lemma positions_from_length f l n m :
  length (positions_from n f l) = length (positions_from m f l).
Proof.
  revert n m. induction l as [|x l IH]; intros n m; cbn; [done |].
  rewrite !length_app. f_equal; [by destruct (f x) | apply IH].
Qed.

Lemma count_from_app o l1 l2 :
  count_from o (l1 ++ l2) = (count_from o l1 + count_from o l2)%nat.
Proof.
  unfold count_from, positions. rewrite positions_from_app, length_app.
  f_equal. apply positions_from_length.
Qed.

Lemma count_from_none o l :
  Forall (λ ln, who ln ≠ o) l → count_from o l = 0%nat.
Proof.
  intros H. unfold count_from, positions.
  enough (∀ n, positions_from n (written_by o) l = []) as -> by done.
  induction H as [|x l Hx _ IH]; intros n; cbn; [done |].
  unfold written_by at 1. rewrite bool_decide_eq_false_2 by done. apply IH.
Qed.

Lemma release_count_app id fs1 fs2 :
  release_count id (fs1 ++ fs2) = (release_count id fs1 + release_count id fs2)%nat.
Proof. unfold release_count. by rewrite filter_app, length_app. Qed.

Lemma release_count_none id fs :
  Forall (λ e, e.1 ≠ id) fs → release_count id fs = 0%nat.
Proof.
  unfold release_count. induction 1 as [|e fs He _ IH]; [done |].
  rewrite filter_cons. by rewrite decide_False.
Qed.

(** In a well-formed state the next serial number is unused. *)
Lemma well_formed_next_unused s :
  well_formed s →
  count_from (Ctor (next_id s)) (out s) = 0%nat ∧
  count_from (Shown (next_id s)) (out s) = 0%nat ∧
  count_from (Dtor (next_id s)) (out s) = 0%nat ∧
  release_count (next_id s) (frees s) = 0%nat.
Proof.
  intros (Hout & Hfrees & _). split_and!.
  1-3: apply count_from_none; eapply Forall_impl; [exact Hout |];
       intros ln Hln Hwho; specialize (Hln (next_id s)); rewrite Hwho in Hln;
       specialize (Hln eq_refl); lia.
  apply release_count_none. eapply Forall_impl; [exact Hfrees |].
  intros e He. cbn in He. lia.
Qed.

(** The lines one demonstration writes for its object, counted. *)
Lemma count_from_object_lines o n v :
  count_from o [ctor_line n v; shown_line n v; dtor_line n v] =
  (if decide (o = Ctor n ∨ o = Shown n ∨ o = Dtor n) then 1 else 0)%nat.
Proof.
  unfold count_from, positions, written_by. cbn. case_decide as Hd.
  - destruct Hd as [-> | [-> | ->]];
      repeat case_bool_decide; done.
  - rewrite !bool_decide_eq_false_2 by (intros <-; apply Hd; auto). done.
Qed.

(** What either demonstration does to any state: one object constructed,
    shown, destroyed and released; only the manual one adds a line that is
    not about an object. *)
Lemma run_demo_run alloc d s :
  ∃ tail rel,
    run_demo alloc d s =
    (Normal tt,
     {| heap := delete (alloc (heap s)) (heap s);
        next_id := S (next_id s);
        out := out s ++ [ ctor_line (next_id s) 42; shown_line (next_id s) 42;
                          dtor_line (next_id s) 42 ] ++ tail;
        frees := frees s ++ [ (next_id s, rel) ] |}) ∧
    Forall (λ ln, origin_id (who ln) = None) tail.
Proof.
  destruct d; cbn [run_demo].
  - exists [release_message], ExplicitDelete.
    rewrite withoutSmartPointer_run. split; [done |].
    by apply Forall_singleton.
  - exists [], OwnerScopeExit.
    rewrite withUniquePointer_run. split; [done | constructor].
Qed.

Lemma count_from_after_demo o l n tail :
  Forall (λ ln, origin_id (who ln) = None) tail →
  origin_id o ≠ None →
  count_from o (l ++ [ctor_line n 42; shown_line n 42; dtor_line n 42] ++ tail) =
  (count_from o l +
   (if decide (o = Ctor n ∨ o = Shown n ∨ o = Dtor n) then 1 else 0))%nat.
Proof.
  intros Htail Ho. rewrite !count_from_app, count_from_object_lines.
  rewrite (count_from_none o tail); [lia |].
  eapply Forall_impl; [exact Htail |]. intros ln Hln <-. done.
Qed.

Lemma final_ctor1 : positions (written_by (Ctor 1)) (out final) = [7%nat].
Proof. reflexivity. Qed.

(** X1.  With an allocator that hands out a free address,
    [withoutSmartPointer] returns normally and leaves the store exactly as
    it found it: its object is gone and no other object was touched. *)
Theorem withoutSmartPointer_balanced (alloc : gmap loc object → loc) (s : state) :
  heap s !! alloc (heap s) = None →
  (withoutSmartPointer alloc s).1 = Normal tt ∧
  heap (withoutSmartPointer alloc s).2 = heap s.
Proof.
  intros Hfresh. rewrite withoutSmartPointer_run. cbn.
  split; [done | by apply delete_id].
Qed.

Lemma withoutSmartPointer_balanced_witness :
  (withoutSmartPointer first_fit initial).1 = Normal tt ∧
  heap (withoutSmartPointer first_fit initial).2 = heap initial.
Proof.
  apply (withoutSmartPointer_balanced first_fit initial). reflexivity.
Defined.

(** X2.  With an allocator that hands out a free address,
    [withUniquePointer] returns normally and leaves the store exactly as it
    found it, although it contains no [delete]. *)
Theorem withUniquePointer_balanced (alloc : gmap loc object → loc) (s : state) :
  heap s !! alloc (heap s) = None →
  (withUniquePointer alloc s).1 = Normal tt ∧
  heap (withUniquePointer alloc s).2 = heap s.
Proof.
  intros Hfresh. rewrite withUniquePointer_run. cbn.
  split; [done | by apply delete_id].
Qed.

Lemma withUniquePointer_balanced_witness :
  (withUniquePointer first_fit initial).1 = Normal tt ∧
  heap (withUniquePointer first_fit initial).2 = heap initial.
Proof.
  apply (withUniquePointer_balanced first_fit initial). reflexivity.
Defined.

(** X3.  From the same state and with the same allocator the two
    demonstrations do the same thing to the store and write the same
    lines, except that the manual one ends with "Memory manually freed.";
    they release the same object, one by [delete], the other through the
    owner. *)
Theorem demonstrations_agree (alloc : gmap loc object → loc) (s : state) :
  (withoutSmartPointer alloc s).1 = (withUniquePointer alloc s).1 ∧
  out (withoutSmartPointer alloc s).2 =
    out (withUniquePointer alloc s).2 ++ [ release_message ] ∧
  heap (withoutSmartPointer alloc s).2 = heap (withUniquePointer alloc s).2 ∧
  next_id (withoutSmartPointer alloc s).2 = next_id (withUniquePointer alloc s).2 ∧
  (frees (withoutSmartPointer alloc s).2).*1 = (frees (withUniquePointer alloc s).2).*1 ∧
  last (frees (withoutSmartPointer alloc s).2) = Some (next_id s, ExplicitDelete) ∧
  last (frees (withUniquePointer alloc s).2) = Some (next_id s, OwnerScopeExit).
Proof.
  rewrite withoutSmartPointer_run, withUniquePointer_run. cbn [fst snd out heap next_id frees].
  split_and!; try done.
  - by rewrite <- (assoc_L (++)).
  - by rewrite !fmap_app.
  - apply last_snoc.
  - apply last_snoc.
Qed.

(** X5.  [display] tells values apart: for two live objects, the texts it
    writes are the same exactly when the objects hold the same value. *)
Theorem display_tells_values_apart (a b : loc) (o o' : object) (s : state) :
  heap s !! a = Some o →
  heap s !! b = Some o' →
  text <$> last (out (display a s).2) = text <$> last (out (display b s).2) ↔
  data (fields o) = data (fields o').
Proof.
  intros Ha Hb. rewrite (display_run a o s Ha), (display_run b o' s Hb).
  cbn [snd with_line out]. rewrite !last_snoc. cbn. split.
  - intros [= H]. by apply show_int_inj.
  - by intros ->.
Qed.

Lemma display_tells_values_apart_witness :
  let s := constructed 2%positive 7 (constructed 1%positive 42 initial) in
  text <$> last (out (display 1%positive s).2) =
  text <$> last (out (display 2%positive s).2) ↔
  42 = 7.
Proof.
  apply (display_tells_values_apart 1%positive 2%positive
           (mkObject 0 (mkResource 42)) (mkObject 1 (mkResource 7))
           (constructed 2%positive 7 (constructed 1%positive 42 initial))); reflexivity.
Defined.

(** X6.  Both demonstrations keep serial numbers in order: run in a
    well-formed state, each ends in a well-formed state. *)
Theorem demonstrations_keep_well_formed
    (alloc : gmap loc object → loc) (d : demo) (s : state) :
  well_formed s →
  well_formed (run_demo alloc d s).2.
Proof.
  intros (Hout & Hfrees & Hheap).
  destruct (run_demo_run alloc d s) as (tail & rel & -> & Htail).
  unfold well_formed. cbn [snd out frees heap next_id]. split_and!.
  - rewrite !Forall_app. split_and!.
    + eapply Forall_impl; [exact Hout |]. intros ln Hln id Hid.
      specialize (Hln id Hid). lia.
    + apply Forall_cons; split; [| apply Forall_cons; split;
                                   [| apply Forall_singleton]];
        cbn; intros id [= <-]; lia.
    + eapply Forall_impl; [exact Htail |]. intros ln Hln id Hid. congruence.
  - rewrite Forall_app, Forall_singleton. split; [| cbn; lia].
    eapply Forall_impl; [exact Hfrees |]. intros e He. cbn in He. lia.
  - apply map_Forall_delete. eapply map_Forall_impl; [exact Hheap |].
    intros a o Ho. cbn in Ho. lia.
Qed.

Lemma demonstrations_keep_well_formed_witness :
  well_formed (run_demo first_fit Scoped initial).2.
Proof.
  apply (demonstrations_keep_well_formed first_fit Scoped initial).
  split_and!; [constructor | constructor | apply map_Forall_empty].
Defined.

(** X7.  Run in a well-formed state, either demonstration gives its
    object (the next serial number) exactly one constructor line, one
    display line, one destructor line and one release, and adds no such
    line and no release for any other object. *)
Theorem demonstration_signals_once
    (alloc : gmap loc object → loc) (d : demo) (s : state) :
  well_formed s →
  count_from (Ctor (next_id s)) (out (run_demo alloc d s).2) = 1%nat ∧
  count_from (Shown (next_id s)) (out (run_demo alloc d s).2) = 1%nat ∧
  count_from (Dtor (next_id s)) (out (run_demo alloc d s).2) = 1%nat ∧
  release_count (next_id s) (frees (run_demo alloc d s).2) = 1%nat ∧
  ∀ id, id ≠ next_id s →
    count_from (Ctor id) (out (run_demo alloc d s).2) = count_from (Ctor id) (out s) ∧
    count_from (Shown id) (out (run_demo alloc d s).2) = count_from (Shown id) (out s) ∧
    count_from (Dtor id) (out (run_demo alloc d s).2) = count_from (Dtor id) (out s) ∧
    release_count id (frees (run_demo alloc d s).2) = release_count id (frees s).
Proof.
  intros Hwf.
  destruct (well_formed_next_unused s Hwf) as (Hc & Hs & Hd & Hr).
  destruct (run_demo_run alloc d s) as (tail & rel & -> & Htail).
  cbn [snd out frees].
  rewrite !(count_from_after_demo _ _ _ _ Htail) by done.
  rewrite Hc, Hs, Hd, release_count_snoc, Hr.
  split_and!; try (rewrite decide_True by auto; done).
  intros id Hid. rewrite !release_count_snoc.
  rewrite !(count_from_after_demo _ _ _ _ Htail) by done.
  rewrite !decide_False; [split_and!; lia | congruence | ..];
    intros [[=] | [[=] | [=]]]; congruence.
Qed.

Lemma demonstration_signals_once_witness :
  count_from (Ctor 0) (out (run_demo first_fit Manual initial).2) = 1%nat.
Proof.
  apply (demonstration_signals_once first_fit Manual initial).
  split_and!; [constructor | constructor | apply map_Forall_empty].
Defined.

(** Any sequence of demonstrations, started with an empty store. *)
Lemma run_demos_from alloc ds : ∀ s,
  heap s = ∅ →
  (run_demos alloc ds s).1 = Normal tt ∧
  heap (run_demos alloc ds s).2 = ∅ ∧
  next_id (run_demos alloc ds s).2 = (next_id s + length ds)%nat ∧
  ∀ id,
    let new := if decide (next_id s ≤ id < next_id s + length ds)%nat
               then 1%nat else 0%nat in
    count_from (Ctor id) (out (run_demos alloc ds s).2) =
      (count_from (Ctor id) (out s) + new)%nat ∧
    count_from (Dtor id) (out (run_demos alloc ds s).2) =
      (count_from (Dtor id) (out s) + new)%nat ∧
    release_count id (frees (run_demos alloc ds s).2) =
      (release_count id (frees s) + new)%nat.
Proof.
  induction ds as [|d ds IH]; intros s Hempty.
  - cbn. split_and!; [done | done | lia |].
    intros id. rewrite decide_False by lia. split_and!; lia.
  - destruct (run_demo_run alloc d s) as (tail & rel & Hd & Htail).
    cbn [run_demos]. rewrite (bind_run _ _ _ _ _ Hd).
    set (s1 := mkState _ _ _ _) in *.
    assert (Hempty1 : heap s1 = ∅).
    { unfold s1. cbn. rewrite Hempty. apply delete_empty. }
    destruct (IH s1 Hempty1) as (Hres & Hheap & Hnext & Hcount).
    split_and!; [done | done | rewrite Hnext; cbn; lia |].
    intros id. destruct (Hcount id) as (Hc & Hdt & Hr).
    cbv zeta in *. rewrite Hc, Hdt, Hr. unfold s1.
    cbn [out frees next_id length].
    rewrite !(count_from_after_demo _ _ _ _ Htail) by done.
    rewrite release_count_snoc. cbn [fst].
    destruct (decide (id = next_id s)) as [-> | Hne].
    + rewrite !(decide_True (P := _ ∨ _)) by auto.
      rewrite (decide_True (P := next_id s = next_id s)) by done.
      repeat case_decide; split_and!; lia.
    + rewrite !(decide_False (P := _ ∨ _))
        by (intros [[=] | [[=] | [=]]]; congruence).
      rewrite (decide_False (P := next_id s = id)) by congruence.
      repeat case_decide; split_and!; lia.
Qed.

(** X8.  However many times and in whatever order the two demonstrations
    are run from the initial state, the sequence completes, no object is
    left live, one object is constructed per demonstration, and every one
    of them has exactly one constructor line, exactly one destructor line
    and exactly one release. *)
Theorem demonstrations_compose (alloc : gmap loc object → loc) (ds : list demo) :
  (run_demos alloc ds initial).1 = Normal tt ∧
  heap (run_demos alloc ds initial).2 = ∅ ∧
  next_id (run_demos alloc ds initial).2 = length ds ∧
  ∀ id,
    count_from (Ctor id) (out (run_demos alloc ds initial).2) =
      (if (id <? length ds)%nat then 1 else 0)%nat ∧
    count_from (Dtor id) (out (run_demos alloc ds initial).2) =
      (if (id <? length ds)%nat then 1 else 0)%nat ∧
    release_count id (frees (run_demos alloc ds initial).2) =
      (if (id <? length ds)%nat then 1 else 0)%nat.
Proof.
  destruct (run_demos_from alloc ds initial eq_refl) as (Hres & Hheap & Hnext & Hcount).
  split_and!; [done | done | done |].
  intros id. destruct (Hcount id) as (Hc & Hd & Hr). cbv zeta in *.
  rewrite Hc, Hd, Hr. cbn [initial next_id out frees].
  destruct (Nat.ltb_spec id (length ds));
    [rewrite decide_True by (cbn; lia) | rewrite decide_False by (cbn; lia)];
    done.
Qed.

(** X9.  In every run the two objects never exist at the same time: the
    destructor line of the first comes strictly before the constructor
    line of the second, and every line about the first object comes
    before the blank line that separates the demonstrations. *)
Theorem lifetimes_do_not_overlap (alloc : gmap loc object → loc) :
  strictly_after (written_by (Ctor 1)) (written_by (Dtor 0)) (out (run alloc).2) ∧
  positions (λ ln, bool_decide (origin_id (who ln) = Some 0%nat))
    (out (run alloc).2) = [1; 2; 3]%nat ∧
  positions (λ ln, bool_decide (origin_id (who ln) = Some 1%nat))
    (out (run alloc).2) = [7; 8; 9]%nat ∧
  out (run alloc).2 !! 5%nat = Some (mkLine InMain EmptyString).
Proof.
  rewrite run_eq. cbn [snd]. split_and!; try done.
  apply (strictly_after_single _ _ _ _ _ final_ctor1 final_dtor0). lia.
Qed.
